(** * mirai-js v3: the Bot facade (src/Bot/Bot.ts)

    A shallow embedding of [Bot.create] and of the [BotImpl] class: the
    version gate, the construction-time version check, the bridge from the
    service's event streams to the internal emitter, the registration of
    processing chains and error handlers, and [sendMessage].

    JavaScript effects are made explicit.  Every call that leaves the facade
    (the service factory, the service, the console, a listener of the
    emitter) is appended to a trace of [Effect]s; a synchronous call ends in
    a [Completion] (normal or throw), an [async] call in a settled
    [Promise]. *)

From Stdlib Require Import ZArith String Ascii List Lia.
From stdpp Require Import base option list strings gmap.

Local Open Scope Z_scope.

(** ** JavaScript values the facade handles *)

Module Js.

(** An instance of the built-in [Error] class. *)
Record Error := { name : string; message : string }.

(** [new Error(msg)] *)
Definition new_Error (msg : string) : Error :=
  {| name := "Error"; message := msg |}.

(** [Error.prototype.toString], as a template literal applies it. *)
Definition Error_toString (e : Error) : string :=
  if String.eqb (name e) "" then message e
  else if String.eqb (message e) "" then name e
  else name e +:+ ": " +:+ message e.

(** [`${v}`] for a value that is a string or [undefined]. *)
Definition template (v : option string) : string :=
  match v with
  | Some s => s
  | None => "undefined"
  end.

(** [a ?? b] *)
Definition nullish {A} (a : option A) (b : A) : A :=
  match a with
  | Some x => x
  | None => b
  end.

(** [s.split('.')]: the pieces between the dots, never an empty array. *)
Fixpoint split_dot (s : string) : list string :=
  match s with
  | EmptyString => [EmptyString]
  | String c rest =>
      if Ascii.eqb c "."%char then EmptyString :: split_dot rest
      else match split_dot rest with
           | piece :: pieces => String c piece :: pieces
           | [] => [String c EmptyString]
           end
  end.

(** [xs.slice(0, n)] *)
Definition slice0 {A} (n : nat) (xs : list A) : list A := take n xs.

(** [xs.some((v, i) => f v i)], the index counted from [i]. *)
Fixpoint some_from {A} (f : A -> nat -> bool) (i : nat) (xs : list A) : bool :=
  match xs with
  | [] => false
  | v :: rest => f v i || some_from f (S i) rest
  end.

Definition some {A} (f : A -> nat -> bool) (xs : list A) : bool :=
  some_from f 0 xs.

(** [v !== xs[i]] for a string [v]: an index out of range reads
    [undefined], which differs from every string. *)
Definition strict_ne_at (xs : list string) (v : string) (i : nat) : bool :=
  match xs !! i with
  | Some w => negb (String.eqb v w)
  | None => true
  end.

(** A settled promise. *)
Inductive Promise (A : Type) : Type :=
| Fulfilled (value : A)
| Rejected (reason : Error).
Arguments Fulfilled {A} value.
Arguments Rejected {A} reason.

(** [(await p).field], inside an async function. *)
Definition await_map {A B} (f : A -> B) (p : Promise A) : Promise B :=
  match p with
  | Fulfilled v => Fulfilled (f v)
  | Rejected r => Rejected r
  end.

End Js.

(** ** Wire types (../types, of which the facade reads only these parts) *)

(** One segment of a message chain; [Plain] is the only one the facade
    builds itself. *)
Inductive MessageSegment : Type :=
| Plain (text : string)
| Segment (type : string) (fields : list (string * string)).

Definition MessageChain : Type := list MessageSegment.

(** [string | MessageChain] *)
Inductive Message : Type :=
| Text (s : string)
| Chain (messageChain : MessageChain).

(** [GenericEvent.data]: the type tag and the rest of the record.  A
    malformed record may lack its tag. *)
Module EventData.
Record t := { type : option string; payload : list (string * string) }.
End EventData.

(** [GenericEvent], as the service pushes it; [data] may be missing. *)
Module GenericEvent.
Record t := { syncId : Z; data : option EventData.t }.
End GenericEvent.

(** What a listener of the emitter is called with. *)
Inductive Value : Type :=
| VUndefined
| VError (e : Js.Error)
| VEvent (d : EventData.t).

(** What a synchronous call can throw: an [Error] instance, or the
    [ERR_UNHANDLED_ERROR] the emitter builds around a value that is not
    one. *)
Inductive Exn : Type :=
| ExnError (e : Js.Error)
| ExnUnhandled (context : Value).

Inductive Completion (A : Type) : Type :=
| Normal (value : A)
| Throw (e : Exn).
Arguments Normal {A} value.
Arguments Throw {A} e.

(** ** The service (../services, ../api): an external collaborator *)

Module ServiceOptions.
Record t := {
  url : string; verifyKey : string; qq : Z; syncId : Z; version : string
}.
End ServiceOptions.

Module SendRequest.
Record t := { target : Z; messageChain : MessageChain }.
End SendRequest.

Module SendResponse.
Record t := { messageId : option Z }.
End SendResponse.

Module About.
Record Data := { version : string }.
Record Response := { data : Data }.
End About.

(** The operations of a service the facade calls, each by the promise it
    settles to. *)
Module Service.
Record t := {
  sendFriendMessage : SendRequest.t -> Js.Promise SendResponse.t;
  sendGroupMessage : SendRequest.t -> Js.Promise SendResponse.t;
  getAbout : Js.Promise About.Response
}.
End Service.

(** A function the caller hands over, known by reference: the facade stores
    it and calls it, and never looks inside. *)
Definition FunctionRef : Type := nat.

(** A reference to a [ProcessChain] object. *)
Definition ChainRef : Type := nat.

(** A listener stored in the emitter: [chain.run.bind(chain)] or a function
    of the caller. *)
Inductive Listener : Type :=
| BoundRun (chain : ChainRef)
| Callback (f : FunctionRef).

(** ** Effects *)

Inductive Effect : Type :=
| FactoryCreate (opts : ServiceOptions.t)
| ServiceOn (event : string)
| SendFriendMessage (req : SendRequest.t)
| SendGroupMessage (req : SendRequest.t)
| GetAbout
| ConsoleWarn (line : string)
| ConsoleError (line : string)
| Invoke (listener : Listener) (arg : Value).

(** A computation: the effects it performed, in order, and its result. *)
Definition Eff (A : Type) : Type := list Effect * A.

Definition ret {A} (a : A) : Eff A := ([], a).

Definition bind {A B} (m : Eff A) (k : A -> Eff B) : Eff B :=
  (fst m ++ fst (k (snd m)), snd (k (snd m))).

Definition perform (e : Effect) : Eff unit := ([e], tt).

Definition effects {A} (m : Eff A) : list Effect := fst m.
Definition result {A} (m : Eff A) : A := snd m.

Declare Scope eff_scope.
Delimit Scope eff_scope with eff.
Notation "x <- m ;; k" := (bind m (fun x => k))
  (at level 100, m at next level, right associativity) : eff_scope.
Notation "m ;;; k" := (bind m (fun _ => k))
  (at level 100, right associativity) : eff_scope.
Local Open Scope eff_scope.

(** ** EventEmitter (the [events] module of the runtime)

    The part the facade uses: [on] and [emit].  [_events] maps a property
    key to the array of its listeners, in the order they were added.  Event
    names are message and event type tags; the emitter's own meta events
    ([newListener], [removeListener]) are not modelled.  A listener is taken
    to return normally: what a caller's function does is the caller's. *)

Module EventEmitter.

Record t := { _events : gmap string (list Listener) }.

Definition new : t := {| _events := ∅ |}.

(** [events[key]], an absent entry read as no listener. *)
Definition listeners (this : t) (key : string) : list Listener :=
  default [] (_events this !! key).

(** [emitter.on(eventName, listener)]: appended to the array of the key. *)
Definition on (this : t) (eventName : string) (listener : Listener) : t :=
  {| _events :=
       <[eventName := listeners this eventName ++ [listener]]> (_events this) |}.

(** [events[type]] converts [type] to a property key: [undefined] reads
    the key ['undefined']. *)
Definition property_key (type : option string) : string := Js.template type.

(** [type === 'error'] *)
Definition is_error (type : option string) : bool :=
  match type with
  | Some s => String.eqb s "error"
  | None => false
  end.

(** What an unhandled ['error'] event throws: the argument itself when it
    is an [Error], an [ERR_UNHANDLED_ERROR] around it otherwise. *)
Definition unhandled (arg : Value) : Exn :=
  match arg with
  | VError e => ExnError e
  | _ => ExnUnhandled arg
  end.

(** [emitter.emit(type, arg)]: an ['error'] event without a listener
    throws; otherwise every listener of the key is called with [arg], in
    order, and the result tells whether there was one. *)
Definition emit (this : t) (type : option string) (arg : Value)
  : Eff (Completion bool) :=
  if is_error type && bool_decide (listeners this "error" = []) then
    ret (Throw (unhandled arg))
  else
    match listeners this (property_key type) with
    | [] => ret (Normal false)
    | handlers => (map (fun l => Invoke l arg) handlers, Normal true)
    end.

End EventEmitter.

(** ** ProcessChain (../Middleware) *)

Module ProcessChain.

(** Modelled from the spec: the result type of a stage is declared in
    ../Middleware, which is not among the sources.  A stage settles to a
    payload to pass onward, to the terminal signal, or to a failure it
    raised. *)
Inductive Outcome (T : Type) : Type :=
| Next (payload : T)
| Terminate
| Raise (failure : Js.Error).
Arguments Next {T} payload.
Arguments Terminate {T}.
Arguments Raise {T} failure.

(** Modelled from the spec: the type [MiddlewareFunc] of ../Middleware is
    not among the sources.  A stage is a function from the current payload
    and the original event to a payload to pass onward or a terminal
    signal; it may also raise a failure. *)
Definition MiddlewareFunc (T : Type) : Type := T -> T -> Outcome T.

(** Modelled from the spec: the class [ProcessChain] of ../Middleware is
    not among the sources.  A chain is an ordered, mutable sequence of
    stages. *)
Record t (T : Type) := { chain : list (MiddlewareFunc T) }.
Arguments chain {T} _.

(** Modelled from the spec: the constructor of [ProcessChain] is not among
    the sources.  A chain is created fresh, without a stage. *)
Definition new {T} : t T := {| chain := [] |}.

(** Modelled from the spec: [ProcessChain.pipe] is not among the sources.
    [pipe(stage)] appends one stage to the end and returns the same
    chain. *)
Definition pipe {T} (this : t T) (stage : MiddlewareFunc T) : t T :=
  {| chain := chain this ++ [stage] |}.

(** Modelled from the spec: what [run] does is observed as a record, one
    entry per stage that ran.  An entry is a stage started on [input] and
    settled to [outcome] before anything later in the record happens. *)
Record StageRun (T : Type) := {
  index : nat;
  input : T;
  outcome : Outcome T
}.
Arguments index {T} _.
Arguments input {T} _.
Arguments outcome {T} _.

Definition is_terminal {T} (o : Outcome T) : bool :=
  match o with
  | Next _ => false
  | Terminate | Raise _ => true
  end.

(** Modelled from the spec: the loop of [run], over the stages from
    position [i] on, the current payload being [current]. *)
Fixpoint run_from {T} (stages : list (MiddlewareFunc T)) (i : nat)
    (event current : T) : list (StageRun T) :=
  match stages with
  | [] => []
  | stage :: rest =>
      let o := stage current event in
      {| index := i; input := current; outcome := o |} ::
      match o with
      | Next payload => run_from rest (S i) event payload
      | Terminate | Raise _ => []
      end
  end.

(** Modelled from the spec: [ProcessChain.run] is not among the sources.
    [run(event)] executes stage 0 on the event, then stage 1 on stage 0's
    output, and so on, awaiting each stage before it advances; a terminal
    signal or a raised failure ends the run of this occurrence.  The
    result is the record of the stages that ran. *)
Definition run {T} (this : t T) (event : T) : list (StageRun T) :=
  run_from (chain this) 0 event event.

End ProcessChain.

(** The store of the [ProcessChain] objects alive, by reference. *)
Abbreviation Heap := (gmap ChainRef (ProcessChain.t EventData.t)).

(** ** MiraiServiceFactory (../services) *)

Module MiraiServiceFactory.
(** The factory is an external collaborator: it is a parameter of the
    development, and each of its calls is an effect. *)
Record t := { create : ServiceOptions.t -> Service.t }.
End MiraiServiceFactory.

(** The argument of [Bot.create] and of the constructor of [BotImpl]. *)
Module BotOptions.
Record t := {
  url : string;
  verifyKey : string;
  qq : Z;
  syncId : option Z;
  version : option string
}.
End BotOptions.

(** The argument of [sendMessage]. *)
Module SendArgs.
Record t := { qq : option Z; group : option Z; message : Message }.
End SendArgs.

(** ** class BotImpl *)

Module BotImpl.

Record t := {
  service : Service.t;
  _version : string;
  emitter : EventEmitter.t
}.

Definition with_emitter (this : t) (e : EventEmitter.t) : t :=
  {| service := service this; _version := _version this; emitter := e |}.

(** [get version()] *)
Definition version (this : t) : string := _version this.

(** [async getAbout()] *)
Definition getAbout (this : t) : Eff (Js.Promise About.Data) :=
  perform GetAbout ;;;
  ret (Js.await_map About.data (Service.getAbout (service this))).

(** [data?.data] *)
Definition event_data (data : option GenericEvent.t) : option EventData.t :=
  d ← data; GenericEvent.data d.

(** [data?.data?.type] *)
Definition event_type (data : option GenericEvent.t) : option string :=
  d ← event_data data; EventData.type d.

Definition to_value (d : option EventData.t) : Value :=
  match d with
  | Some d => VEvent d
  | None => VUndefined
  end.

(** The listener [startListen] gives the service for ['miraiEvent']:
    [data => this.emitter.emit(data?.data?.type, data?.data)]. *)
Definition on_miraiEvent (this : t) (data : option GenericEvent.t)
  : Eff (Completion bool) :=
  EventEmitter.emit (emitter this) (event_type data) (to_value (event_data data)).

(** The listener [startListen] gives the service for ['error']:
    [err => this.emitter.emit('error', err)]. *)
Definition on_service_error (this : t) (err : Value) : Eff (Completion bool) :=
  EventEmitter.emit (emitter this) (Some "error") err.

(** [private async startListen()]: both subscriptions are made before the
    function returns its promise. *)
Definition startListen (this : t) : Eff (Js.Promise unit) :=
  perform (ServiceOn "miraiEvent") ;;;
  perform (ServiceOn "error") ;;;
  ret (Js.Fulfilled tt).

(** The test of the version check: some of the first two components of
    the reported version is not the component of [_version] at its
    position. *)
Definition version_mismatch (this : t) (reported : string) : bool :=
  let currVersions := Js.slice0 2 (Js.split_dot (_version this)) in
  Js.some (Js.strict_ne_at currVersions) (Js.slice0 2 (Js.split_dot reported)).

(** The fulfilment handler of the version check. *)
Definition check_fulfilled (this : t) (about : About.Data) : Eff (Completion unit) :=
  if version_mismatch this (About.version about) then
    perform (ConsoleWarn
      ("[WARN] mirai-api-http version mismatch: " +:+ _version this +:+
       "(mirai-js) vs " +:+ About.version about +:+ "(mirai-api-http)")) ;;;
    ret (Normal tt)
  else ret (Normal tt).

(** The rejection handler of the version check. *)
Definition check_rejected (err : Js.Error) : Eff (Completion unit) :=
  perform (ConsoleError
    ("[ERROR] mirai-api-http version check failed: " +:+ Js.Error_toString err)) ;;;
  ret (Normal tt).

(** [this.getAbout().then(..., ...)]: the handler that matches the way the
    promise settled runs, later; the promise [then] returns is dropped. *)
Definition version_check (this : t) : Eff (Completion unit) :=
  about <- getAbout this ;;
  match about with
  | Js.Fulfilled a => check_fulfilled this a
  | Js.Rejected err => check_rejected err
  end.

Section Constructor.
Variable factory : MiraiServiceFactory.t.

(** [constructor({ url, verifyKey, qq, syncId = -1, version = '2.6.0' })].
    The handlers of the version check run after the constructor has
    returned; their effects close the trace, and what they complete
    with reaches nobody. *)
Definition new (opts : BotOptions.t) : Eff (Completion t) :=
  let syncId := Js.nullish (BotOptions.syncId opts) (-1) in
  let version := Js.nullish (BotOptions.version opts) "2.6.0" in
  let sopts :=
    {| ServiceOptions.url := BotOptions.url opts;
       ServiceOptions.verifyKey := BotOptions.verifyKey opts;
       ServiceOptions.qq := BotOptions.qq opts;
       ServiceOptions.syncId := syncId;
       ServiceOptions.version := version |} in
  perform (FactoryCreate sopts) ;;;
  let this :=
    {| service := MiraiServiceFactory.create factory sopts;
       _version := version;
       emitter := EventEmitter.new |} in
  startListen this ;;;
  version_check this ;;;
  ret (Normal this).
End Constructor.

(** [onError(listener)]; the result is [this]. *)
Definition onError (this : t) (listener : FunctionRef) : t :=
  with_emitter this (EventEmitter.on (emitter this) "error" (Callback listener)).

(** [on(event, listener?)]: a new chain object, the listener piped into it
    when it is a function, [chain.run] bound to the chain registered under
    [event]; the result is the chain. *)
Definition on (heap : Heap) (this : t) (event : string)
    (listener : option (ProcessChain.MiddlewareFunc EventData.t))
  : Heap * t * ChainRef :=
  let ref := fresh (dom heap) in
  let chain := ProcessChain.new in
  let chain :=
    match listener with
    | Some f => ProcessChain.pipe chain f
    | None => chain
    end in
  (<[ref := chain]> heap,
   with_emitter this (EventEmitter.on (emitter this) event (BoundRun ref)),
   ref).

(** [typeof message === 'string' ? [{ type: 'Plain', text: message }] : message] *)
Definition to_messageChain (message : Message) : MessageChain :=
  match message with
  | Text s => [Plain s]
  | Chain messageChain => messageChain
  end.

(** [async sendMessage({ qq, group, message })] *)
Definition sendMessage (this : t) (args : SendArgs.t) : Eff (Js.Promise (option Z)) :=
  let messageChain := to_messageChain (SendArgs.message args) in
  match SendArgs.qq args with
  | Some qq =>
      let req := {| SendRequest.target := qq; SendRequest.messageChain := messageChain |} in
      perform (SendFriendMessage req) ;;;
      ret (Js.await_map SendResponse.messageId (Service.sendFriendMessage (service this) req))
  | None =>
      match SendArgs.group args with
      | Some group =>
          let req := {| SendRequest.target := group; SendRequest.messageChain := messageChain |} in
          perform (SendGroupMessage req) ;;;
          ret (Js.await_map SendResponse.messageId (Service.sendGroupMessage (service this) req))
      | None => ret (Js.Rejected (Js.new_Error "qq or group must be specified"))
      end
  end.

End BotImpl.

(** ** class Bot *)

Module Bot.

(** [private static versions = new Set(['2.6.0'])] *)
Definition versions : gset string := {[ "2.6.0" ]}.

Section Create.
Variable factory : MiraiServiceFactory.t.

(** [static create({ url, verifyKey, qq, syncId = -1, version })] *)
Definition create (opts : BotOptions.t) : Eff (Completion BotImpl.t) :=
  let syncId := Js.nullish (BotOptions.syncId opts) (-1) in
  let version := BotOptions.version opts in
  if bool_decide (Js.nullish version "2.6.0" ∈ versions) then
    BotImpl.new factory
      {| BotOptions.url := BotOptions.url opts;
         BotOptions.verifyKey := BotOptions.verifyKey opts;
         BotOptions.qq := BotOptions.qq opts;
         BotOptions.syncId := Some syncId;
         BotOptions.version := version |}
  else
    ret (Throw (ExnError
      (Js.new_Error ("Unsupported version: " +:+ Js.template version)))).
End Create.

End Bot.

(** ** What the caller does with a facade *)

(** A registration call on the facade. *)
Inductive Call : Type :=
| CallOn (event : string) (listener : option (ProcessChain.MiddlewareFunc EventData.t))
| CallOnError (listener : FunctionRef).

Definition call (st : Heap * BotImpl.t) (c : Call) : Heap * BotImpl.t :=
  match c with
  | CallOn event listener => fst (BotImpl.on (fst st) (snd st) event listener)
  | CallOnError listener => (fst st, BotImpl.onError (snd st) listener)
  end.

(** The store and the facade after a sequence of registration calls. *)
Definition after (calls : list Call) (st : Heap * BotImpl.t) : Heap * BotImpl.t :=
  fold_left call calls st.

(** The event name a call registers under. *)
Definition registers_under (c : Call) : string :=
  match c with
  | CallOn event _ => event
  | CallOnError _ => "error"
  end.

(** The lines written to the console, in order. *)
Definition is_console (e : Effect) : bool :=
  match e with
  | ConsoleWarn _ | ConsoleError _ => true
  | _ => false
  end.

Definition console (tr : list Effect) : list Effect := List.filter is_console tr.

(** The calls of the service factory. *)
Definition factory_calls (tr : list Effect) : list ServiceOptions.t :=
  omap (fun e => match e with
                 | FactoryCreate o => Some o
                 | _ => None
                 end) tr.

(** ** Version strings, in the words of the specification *)

(** The major and minor components of a version string. *)
Definition major_minor (v : string) : list string := take 2 (Js.split_dot v).

(** Two versions differ at major.minor granularity. *)
Definition differs_major_minor (a b : string) : Prop :=
  major_minor a <> major_minor b.

(** A version string that has a minor component. *)
Definition has_minor (v : string) : Prop := (2 <= length (Js.split_dot v))%nat.

(** The components of a version string, read off one character at a time:
    [piece] is the component being read, which a dot or the end of the
    string closes. *)
Fixpoint components_from (piece s : string) : list string :=
  match s with
  | EmptyString => [piece]
  | String c rest =>
      if Ascii.eqb c "."%char then piece :: components_from EmptyString rest
      else components_from (piece +:+ String c EmptyString) rest
  end.

Definition components (v : string) : list string := components_from EmptyString v.

(** The components written back with a dot between them. *)
Fixpoint join_dot (pieces : list string) : string :=
  match pieces with
  | [] => EmptyString
  | piece :: rest =>
      match rest with
      | [] => piece
      | _ :: _ => piece +:+ "." +:+ join_dot rest
      end
  end.

(** A string without a dot. *)
Fixpoint dot_free (s : string) : bool :=
  match s with
  | EmptyString => true
  | String c rest => negb (Ascii.eqb c "."%char) && dot_free rest
  end.

(** The reported version differs from the declared one at major.minor
    granularity: their first two components are not the same. *)
Definition differs_at_major_minor (declared reported : string) : Prop :=
  take 2 (components declared) <> take 2 (components reported).

(** The reported version is the major component of the declared one and
    nothing more, as 2 is of 2.6.0. *)
Definition is_bare_major_of (declared reported : string) : Prop :=
  components reported = take 1 (components declared).

(** ** A service to run the facade against *)

Module Demo.

Definition service (reported : string) : Service.t :=
  {| Service.sendFriendMessage := fun _ => Js.Fulfilled {| SendResponse.messageId := Some 42 |};
     Service.sendGroupMessage := fun _ => Js.Fulfilled {| SendResponse.messageId := Some 7 |};
     Service.getAbout := Js.Fulfilled {| About.data := {| About.version := reported |} |} |}.

Definition factory (reported : string) : MiraiServiceFactory.t :=
  {| MiraiServiceFactory.create := fun _ => service reported |}.

Definition opts (version : option string) : BotOptions.t :=
  {| BotOptions.url := "http://localhost:8080";
     BotOptions.verifyKey := "key";
     BotOptions.qq := 10001;
     BotOptions.syncId := None;
     BotOptions.version := version |}.

(** The facade [new BotImpl] builds against a service that reports 2.6.2. *)
Definition bot : BotImpl.t :=
  {| BotImpl.service := service "2.6.2";
     BotImpl._version := "2.6.0";
     BotImpl.emitter := EventEmitter.new |}.

Definition friendMessage : GenericEvent.t :=
  {| GenericEvent.syncId := -1;
     GenericEvent.data :=
       Some {| EventData.type := Some "FriendMessage";
               EventData.payload := [("text", "hi")] |} |}.

Definition untagged : GenericEvent.t :=
  {| GenericEvent.syncId := -1;
     GenericEvent.data :=
       Some {| EventData.type := None; EventData.payload := [("text", "hi")] |} |}.

Definition errorEvent : EventData.t :=
  {| EventData.type := Some "error"; EventData.payload := [("msg", "kicked")] |}.

Definition socketClosed : Js.Error := Js.new_Error "socket closed".

End Demo.

(** * Properties *)

(** ** Construction *)

Lemma elem_of_versions (V : string) : V ∈ Bot.versions <-> V = "2.6.0".
Proof. unfold Bot.versions. set_solver. Qed.

(** The version check never calls the factory. *)
Lemma version_check_no_factory (this : BotImpl.t) :
  factory_calls (effects (BotImpl.version_check this)) = [].
Proof.
  unfold BotImpl.version_check, BotImpl.getAbout; cbn.
  destruct (Service.getAbout _) as [a|err]; cbn; [|reflexivity].
  unfold BotImpl.check_fulfilled.
  destruct (BotImpl.version_mismatch _ _); reflexivity.
Qed.

(** The constructor always completes normally, with the service the factory
    built, and calls the factory exactly once, before anything else. *)
Lemma new_completes (factory : MiraiServiceFactory.t) (opts : BotOptions.t) :
  let sopts :=
    {| ServiceOptions.url := BotOptions.url opts;
       ServiceOptions.verifyKey := BotOptions.verifyKey opts;
       ServiceOptions.qq := BotOptions.qq opts;
       ServiceOptions.syncId := Js.nullish (BotOptions.syncId opts) (-1);
       ServiceOptions.version := Js.nullish (BotOptions.version opts) "2.6.0" |} in
  let this :=
    {| BotImpl.service := MiraiServiceFactory.create factory sopts;
       BotImpl._version := Js.nullish (BotOptions.version opts) "2.6.0";
       BotImpl.emitter := EventEmitter.new |} in
  BotImpl.new factory opts =
    (FactoryCreate sopts :: ServiceOn "miraiEvent" :: ServiceOn "error"
       :: effects (BotImpl.version_check this),
     Normal this).
Proof.
  intros sopts this. unfold BotImpl.new, bind, perform, ret, effects.
  cbn [fst snd app BotImpl.startListen]. fold sopts. fold this.
  unfold BotImpl.startListen, bind, perform, ret. cbn [fst snd app].
  rewrite app_nil_r. reflexivity.
Qed.

(** C1: for every version tag [V], [create] with [version: V] completes
    normally with a facade of that version when [V] is a supported version,
    after exactly one call of the service factory; when [V] is not
    supported it throws, synchronously, the error "Unsupported version: V"
    (the specification's ConfigurationError) without any effect: the factory
    is not called and no facade is returned. *)
Theorem create_checks_version_first
    (factory : MiraiServiceFactory.t)
    (url verifyKey : string) (qq : Z) (syncId : option Z) (V : string) :
  let opts :=
    {| BotOptions.url := url; BotOptions.verifyKey := verifyKey;
       BotOptions.qq := qq; BotOptions.syncId := syncId;
       BotOptions.version := Some V |} in
  (V ∈ Bot.versions ->
     exists this,
       result (Bot.create factory opts) = Normal this
       /\ BotImpl.version this = V
       /\ length (factory_calls (effects (Bot.create factory opts))) = 1%nat)
  /\ (V ∉ Bot.versions ->
        Bot.create factory opts =
          ([], Throw (ExnError (Js.new_Error ("Unsupported version: " +:+ V))))
        /\ factory_calls (effects (Bot.create factory opts)) = []
        /\ forall this, result (Bot.create factory opts) <> Normal this).
Proof.
  intros opts; split; intros HV.
  - unfold Bot.create. cbn [BotOptions.version opts Js.nullish].
    rewrite bool_decide_eq_true_2 by exact HV.
    rewrite new_completes. cbn [result effects fst snd BotOptions.version Js.nullish].
    eexists; split; [reflexivity|]. split; [reflexivity|].
    match goal with
    | |- context [BotImpl.version_check ?b] =>
        pose proof (version_check_no_factory b) as Hnone
    end.
    unfold factory_calls in *. cbn [omap list_omap].
    rewrite Hnone. reflexivity.
  - assert (E : Bot.create factory opts =
                ([], Throw (ExnError (Js.new_Error ("Unsupported version: " +:+ V))))).
    { unfold Bot.create. cbn [BotOptions.version opts Js.nullish].
      rewrite bool_decide_eq_false_2 by exact HV. reflexivity. }
    rewrite E. repeat split; try reflexivity.
    intros this; cbn; discriminate.
Qed.

(** Without a version the default 2.6.0 is taken, which is supported. *)
Example create_default_version :
  exists tr this,
    Bot.create (Demo.factory "2.6.2") (Demo.opts None) = (tr, Normal this)
    /\ BotImpl.version this = "2.6.0".
Proof. eexists; eexists; split; [vm_compute; reflexivity|reflexivity]. Qed.

Example create_3_0_0 :
  Bot.create (Demo.factory "2.6.2") (Demo.opts (Some "3.0.0")) =
    ([], Throw (ExnError (Js.new_Error "Unsupported version: 3.0.0"))).
Proof. vm_compute; reflexivity. Qed.

(** ** sendMessage *)

(** C2: a [sendMessage] without [qq] and without [group] settles to a
    rejection with the error "qq or group must be specified" (the
    specification's InvalidArgumentError), and no operation of the service
    has been called. *)
Theorem sendMessage_without_target_rejects (this : BotImpl.t) (message : Message) :
  BotImpl.sendMessage this
    {| SendArgs.qq := None; SendArgs.group := None; SendArgs.message := message |} =
  ([], Js.Rejected (Js.new_Error "qq or group must be specified")).
Proof. reflexivity. Qed.

(** C3: a [sendMessage] to [qq] with a string message calls the service's
    friend send once, with the chain of the single segment [Plain text], and
    settles as that send does: to the [messageId] of its response, which may
    be undefined. *)
Theorem sendMessage_promotes_text
    (this : BotImpl.t) (qq : Z) (group : option Z) (text : string) :
  let req := {| SendRequest.target := qq; SendRequest.messageChain := [Plain text] |} in
  let sent :=
    BotImpl.sendMessage this
      {| SendArgs.qq := Some qq; SendArgs.group := group; SendArgs.message := Text text |} in
  effects sent = [SendFriendMessage req]
  /\ result sent =
       Js.await_map SendResponse.messageId (Service.sendFriendMessage (BotImpl.service this) req)
  /\ forall response,
       Service.sendFriendMessage (BotImpl.service this) req = Js.Fulfilled response ->
       result sent = Js.Fulfilled (SendResponse.messageId response).
Proof.
  intros req sent. repeat split.
  intros response E. subst sent req. cbn. rewrite E. reflexivity.
Qed.

Example sendMessage_hello :
  BotImpl.sendMessage Demo.bot
    {| SendArgs.qq := Some 123; SendArgs.group := None; SendArgs.message := Text "hello" |} =
  ([SendFriendMessage {| SendRequest.target := 123; SendRequest.messageChain := [Plain "hello"] |}],
   Js.Fulfilled (Some 42)).
Proof. reflexivity. Qed.

(** C9: a [sendMessage] with both [qq] and [group] goes to the friend send,
    to [qq]; the group send is not called, and the call settles to the
    [messageId] of the friend send's response. *)
Theorem sendMessage_prefers_qq
    (this : BotImpl.t) (qq group : Z) (message : Message) :
  let req :=
    {| SendRequest.target := qq;
       SendRequest.messageChain := BotImpl.to_messageChain message |} in
  let sent :=
    BotImpl.sendMessage this
      {| SendArgs.qq := Some qq; SendArgs.group := Some group; SendArgs.message := message |} in
  effects sent = [SendFriendMessage req]
  /\ (forall greq, SendGroupMessage greq ∉ effects sent)
  /\ result sent =
       Js.await_map SendResponse.messageId (Service.sendFriendMessage (BotImpl.service this) req)
  /\ forall response,
       Service.sendFriendMessage (BotImpl.service this) req = Js.Fulfilled response ->
       result sent = Js.Fulfilled (SendResponse.messageId response).
Proof.
  intros req sent. repeat split.
  - intros greq Hin. subst sent req. cbn in Hin.
    apply list_elem_of_singleton in Hin. discriminate.
  - intros response E. subst sent req. cbn. rewrite E. reflexivity.
Qed.

(** Only without [qq] does a [group] reach the group send. *)
Lemma sendMessage_group_only (this : BotImpl.t) (group : Z) (message : Message) :
  let req :=
    {| SendRequest.target := group;
       SendRequest.messageChain := BotImpl.to_messageChain message |} in
  BotImpl.sendMessage this
    {| SendArgs.qq := None; SendArgs.group := Some group; SendArgs.message := message |} =
  ([SendGroupMessage req],
   Js.await_map SendResponse.messageId (Service.sendGroupMessage (BotImpl.service this) req)).
Proof. reflexivity. Qed.

(** ** The emitter *)

Section EmitterFacts.
Implicit Types (e : EventEmitter.t) (k : string) (l : Listener).

Lemma listeners_new k : EventEmitter.listeners EventEmitter.new k = [].
Proof. unfold EventEmitter.listeners, EventEmitter.new; cbn. by rewrite lookup_empty. Qed.

Lemma listeners_on_eq e k l :
  EventEmitter.listeners (EventEmitter.on e k l) k = EventEmitter.listeners e k ++ [l].
Proof.
  unfold EventEmitter.on. unfold EventEmitter.listeners at 1; cbn.
  by rewrite lookup_insert_eq.
Qed.

Lemma listeners_on_ne e k k' l :
  k <> k' ->
  EventEmitter.listeners (EventEmitter.on e k l) k' = EventEmitter.listeners e k'.
Proof.
  intros Hne. unfold EventEmitter.on, EventEmitter.listeners; cbn.
  by rewrite lookup_insert_ne.
Qed.

(** An event with a listener under its key is handed to every listener of
    the key, in the order of registration, and nothing is thrown. *)
Lemma emit_listened e k (arg : Value) :
  EventEmitter.listeners e k <> [] ->
  EventEmitter.emit e (Some k) arg =
    (map (fun l => Invoke l arg) (EventEmitter.listeners e k), Normal true).
Proof.
  intros Hne. unfold EventEmitter.emit.
  destruct (EventEmitter.is_error (Some k)) eqn:Herr; cbn [andb].
  - cbn in Herr. apply String.eqb_eq in Herr. subst k.
    rewrite bool_decide_eq_false_2 by exact Hne.
    cbn [EventEmitter.property_key Js.template].
    destruct (EventEmitter.listeners e "error"); [done|reflexivity].
  - cbn [EventEmitter.property_key Js.template].
    destruct (EventEmitter.listeners e k); [done|reflexivity].
Qed.

(** An ['error'] event without a listener is thrown. *)
Lemma emit_error_unhandled e (arg : Value) :
  EventEmitter.listeners e "error" = [] ->
  EventEmitter.emit e (Some "error") arg = ([], Throw (EventEmitter.unhandled arg)).
Proof.
  intros Hnil. unfold EventEmitter.emit. cbn [EventEmitter.is_error].
  rewrite String.eqb_refl. rewrite bool_decide_eq_true_2 by exact Hnil.
  reflexivity.
Qed.

(** An event without a type tag reads the key ['undefined']. *)
Lemma emit_undefined e (arg : Value) :
  EventEmitter.listeners e "undefined" = [] ->
  EventEmitter.emit e None arg = ([], Normal false).
Proof.
  intros Hnil. unfold EventEmitter.emit. cbn [EventEmitter.is_error andb].
  cbn [EventEmitter.property_key Js.template]. rewrite Hnil. reflexivity.
Qed.
End EmitterFacts.

(** A registration call touches the listeners of its own event name only. *)
Lemma call_listeners_ne (st : Heap * BotImpl.t) (c : Call) (k : string) :
  registers_under c <> k ->
  EventEmitter.listeners (BotImpl.emitter (snd (call st c))) k =
  EventEmitter.listeners (BotImpl.emitter (snd st)) k.
Proof.
  destruct c as [event listener|listener]; cbn; intros Hne;
    by apply listeners_on_ne.
Qed.

Lemma after_listeners_ne (calls : list Call) (st : Heap * BotImpl.t) (k : string) :
  Forall (fun c => registers_under c <> k) calls ->
  EventEmitter.listeners (BotImpl.emitter (snd (after calls st))) k =
  EventEmitter.listeners (BotImpl.emitter (snd st)) k.
Proof.
  intros Hall. revert st.
  induction Hall as [|c calls Hc _ IH]; intros st; [reflexivity|].
  cbn [after fold_left]. fold (after calls (call st c)).
  rewrite IH. by apply call_listeners_ne.
Qed.

(** What [create] returns has no listener yet. *)
Lemma create_emitter_new (factory : MiraiServiceFactory.t) (opts : BotOptions.t)
    (this : BotImpl.t) :
  result (Bot.create factory opts) = Normal this ->
  BotImpl.emitter this = EventEmitter.new.
Proof.
  unfold Bot.create. case_bool_decide; [|cbn; discriminate].
  rewrite new_completes. cbn [result snd]. intros [= <-]. reflexivity.
Qed.

(** ** The bridge from the service to the emitter *)

(** C4: on a facade that [create] returned and on which chains and error
    handlers were registered under event names (none of them the literal
    ['undefined'], which is the key an absent tag reads), an envelope
    without [data.type] is dropped: no listener, of a chain or of the error
    channel, is called, and the bridge returns normally. *)
Theorem untagged_event_is_dropped
    (factory : MiraiServiceFactory.t) (opts : BotOptions.t) (this : BotImpl.t)
    (heap : Heap) (calls : list Call) (data : option GenericEvent.t) :
  result (Bot.create factory opts) = Normal this ->
  Forall (fun c => registers_under c <> "undefined") calls ->
  BotImpl.event_type data = None ->
  BotImpl.on_miraiEvent (snd (after calls (heap, this))) data = ([], Normal false).
Proof.
  intros Hcreate Hnames Htype. unfold BotImpl.on_miraiEvent. rewrite Htype.
  apply emit_undefined.
  rewrite (after_listeners_ne calls (heap, this) "undefined" Hnames). cbn [snd].
  rewrite (create_emitter_new factory opts this Hcreate).
  apply listeners_new.
Qed.

Lemma untagged_event_is_dropped_witness :
  BotImpl.on_miraiEvent
    (snd (after [CallOn "FriendMessage" None; CallOnError 1%nat; CallOn "GroupMessage" None]
            (∅, Demo.bot)))
    (Some Demo.untagged) = ([], Normal false).
Proof.
  apply (untagged_event_is_dropped (Demo.factory "2.6.2") (Demo.opts None)).
  - reflexivity.
  - repeat constructor; cbn; discriminate.
  - reflexivity.
Defined.

(** The claim of the specification that an error without a handler is
    swallowed. *)
Definition swallowed (this : BotImpl.t) (err : Js.Error) : Prop :=
  exists handled, result (BotImpl.on_service_error this (VError err)) = Normal handled.

(** C5, as the specification states it, fails: on the facade [create]
    returns, before any [onError], an error of the service is not
    swallowed. *)
Lemma error_without_handler_not_swallowed :
  result (Bot.create (Demo.factory "2.6.2") (Demo.opts None)) = Normal Demo.bot
  /\ EventEmitter.listeners (BotImpl.emitter Demo.bot) "error" = []
  /\ ~ swallowed Demo.bot Demo.socketClosed.
Proof.
  split; [reflexivity|]. split; [reflexivity|].
  intros [handled H]. vm_compute in H. discriminate H.
Qed.

(** C5 (amended): an error the service pushes while the error channel has no
    listener is not swallowed: no handler runs and the bridge throws that
    very error back into the service's emit.  Once a handler is registered
    through [onError] the error is handed to every listener of the channel,
    in the order of registration, and nothing is thrown. *)
Theorem error_without_handler_is_thrown (this : BotImpl.t) (err : Js.Error) :
  (EventEmitter.listeners (BotImpl.emitter this) "error" = [] ->
     BotImpl.on_service_error this (VError err) = ([], Throw (ExnError err)))
  /\ (EventEmitter.listeners (BotImpl.emitter this) "error" <> [] ->
        BotImpl.on_service_error this (VError err) =
          (map (fun l => Invoke l (VError err))
               (EventEmitter.listeners (BotImpl.emitter this) "error"),
           Normal true))
  /\ (forall listener,
        BotImpl.on_service_error (BotImpl.onError this listener) (VError err) =
          (map (fun l => Invoke l (VError err))
               (EventEmitter.listeners (BotImpl.emitter this) "error" ++ [Callback listener]),
           Normal true)).
Proof.
  unfold BotImpl.on_service_error. split; [|split].
  - intros Hnil. by rewrite emit_error_unhandled.
  - intros Hne. by apply emit_listened.
  - intros listener. unfold BotImpl.onError; cbn [BotImpl.emitter BotImpl.with_emitter].
    rewrite emit_listened; rewrite listeners_on_eq; [reflexivity|].
    by destruct (EventEmitter.listeners _ _).
Qed.



(** ** The version check of the constructor *)

(** On a reported version that has a minor component, the test of the
    constructor decides whether the two versions differ at major.minor
    granularity. *)
Lemma version_mismatch_spec (this : BotImpl.t) (reported : string) :
  has_minor reported ->
  BotImpl.version_mismatch this reported = true <->
  differs_major_minor (BotImpl._version this) reported.
Proof.
  unfold has_minor, BotImpl.version_mismatch, differs_major_minor, major_minor, Js.slice0.
  destruct (Js.split_dot reported) as [|r0 [|r1 rs]]; cbn [length]; try lia.
  intros _. rewrite !firstn_cons, !take_0.
  destruct (Js.split_dot (BotImpl._version this)) as [|d0 [|d1 ds]];
    rewrite ?firstn_cons, ?take_0, ?firstn_nil; unfold Js.some; cbn.
  - split; [discriminate|reflexivity].
  - destruct (String.eqb_spec r0 d0); cbn; split; try discriminate; reflexivity.
  - destruct (String.eqb_spec r0 d0), (String.eqb_spec r1 d1); cbn; subst;
      split; try reflexivity; try discriminate; try congruence.
Qed.

Example version_check_2_7_1 :
  console (effects (Bot.create (Demo.factory "2.7.1") (Demo.opts None))) =
    [ConsoleWarn
       "[WARN] mirai-api-http version mismatch: 2.6.0(mirai-js) vs 2.7.1(mirai-api-http)"].
Proof. vm_compute; reflexivity. Qed.

Example version_check_2_6_9 :
  console (effects (Bot.create (Demo.factory "2.6.9") (Demo.opts None))) = [].
Proof. vm_compute; reflexivity. Qed.

Example version_check_rejected :
  let failing :=
    {| MiraiServiceFactory.create := fun _ =>
         {| Service.sendFriendMessage := Service.sendFriendMessage (Demo.service "");
            Service.sendGroupMessage := Service.sendGroupMessage (Demo.service "");
            Service.getAbout := Js.Rejected (Js.new_Error "connect ECONNREFUSED") |} |} in
  exists this,
    result (Bot.create failing (Demo.opts None)) = Normal this
    /\ console (effects (Bot.create failing (Demo.opts None))) =
         [ConsoleError
            "[ERROR] mirai-api-http version check failed: Error: connect ECONNREFUSED"].
Proof. eexists; split; vm_compute; reflexivity. Qed.

(** A reported version without a minor component is compared on its major
    component alone: the test runs over the components the service
    reports. *)
Example version_check_major_only :
  ~ has_minor "2"
  /\ console (effects (Bot.create (Demo.factory "2") (Demo.opts None))) = []
  /\ console (effects (Bot.create (Demo.factory "3") (Demo.opts None))) =
       [ConsoleWarn
          "[WARN] mirai-api-http version mismatch: 2.6.0(mirai-js) vs 3(mirai-api-http)"].
Proof.
  split; [unfold has_minor; cbn; lia|]. split; vm_compute; reflexivity.
Qed.

(** ** Registration of chains *)

(** C7: [on(event, listener?)] creates a chain object that was not in the
    store, whose stages are the listener alone when one is given and none
    otherwise, appends the chain's bound [run] to the listeners of [event]
    and of no other name, and returns the reference of that chain.  From
    then on an envelope tagged [event] calls the new chain and, as before,
    every chain registered under [event] earlier, each with the envelope's
    data.  In general an envelope tagged with a name is handed to the
    listeners of that name, one call each, in the order of registration. *)
Theorem on_registers_a_fresh_chain
    (heap : Heap) (this : BotImpl.t) (event : string)
    (listener : option (ProcessChain.MiddlewareFunc EventData.t)) :
  let heap' := fst (fst (BotImpl.on heap this event listener)) in
  let this' := snd (fst (BotImpl.on heap this event listener)) in
  let ref := snd (BotImpl.on heap this event listener) in
  heap !! ref = None
  /\ heap' !! ref =
       Some {| ProcessChain.chain :=
                 match listener with
                 | Some stage => [stage]
                 | None => []
                 end |}
  /\ (forall other, other <> ref -> heap' !! other = heap !! other)
  /\ EventEmitter.listeners (BotImpl.emitter this') event =
       EventEmitter.listeners (BotImpl.emitter this) event ++ [BoundRun ref]
  /\ (forall name, name <> event ->
        EventEmitter.listeners (BotImpl.emitter this') name =
        EventEmitter.listeners (BotImpl.emitter this) name)
  /\ (forall (sync : Z) (payload : list (string * string)),
        let d := {| EventData.type := Some event; EventData.payload := payload |} in
        let out :=
          BotImpl.on_miraiEvent this'
            (Some {| GenericEvent.syncId := sync; GenericEvent.data := Some d |}) in
        out =
          (map (fun l => Invoke l (VEvent d))
               (EventEmitter.listeners (BotImpl.emitter this) event ++ [BoundRun ref]),
           Normal true)
        /\ Invoke (BoundRun ref) (VEvent d) ∈ effects out
        /\ (forall earlier,
              BoundRun earlier ∈ EventEmitter.listeners (BotImpl.emitter this) event ->
              Invoke (BoundRun earlier) (VEvent d) ∈ effects out))
  /\ (forall (bot : BotImpl.t) (sync : Z) (name : string)
             (payload : list (string * string)) (chain : ChainRef),
        let d := {| EventData.type := Some name; EventData.payload := payload |} in
        let out :=
          BotImpl.on_miraiEvent bot
            (Some {| GenericEvent.syncId := sync; GenericEvent.data := Some d |}) in
        BoundRun chain ∈ EventEmitter.listeners (BotImpl.emitter bot) name ->
        out =
          (map (fun l => Invoke l (VEvent d))
               (EventEmitter.listeners (BotImpl.emitter bot) name),
           Normal true)
        /\ Invoke (BoundRun chain) (VEvent d) ∈ effects out).
Proof.
  intros heap' this' ref.
  assert (Hfan : forall (bot : BotImpl.t) (sync : Z) (name : string)
                        (payload : list (string * string)),
            EventEmitter.listeners (BotImpl.emitter bot) name <> [] ->
            BotImpl.on_miraiEvent bot
              (Some {| GenericEvent.syncId := sync;
                       GenericEvent.data :=
                         Some {| EventData.type := Some name;
                                 EventData.payload := payload |} |}) =
              (map (fun l => Invoke l
                      (VEvent {| EventData.type := Some name;
                                 EventData.payload := payload |}))
                   (EventEmitter.listeners (BotImpl.emitter bot) name),
               Normal true)).
  { intros bot sync name payload Hne.
    unfold BotImpl.on_miraiEvent, BotImpl.event_type, BotImpl.event_data, BotImpl.to_value.
    cbn. by apply emit_listened. }
  assert (Hreg : EventEmitter.listeners (BotImpl.emitter this') event =
                 EventEmitter.listeners (BotImpl.emitter this) event ++ [BoundRun ref]).
  { subst this' ref. unfold BotImpl.on.
    cbn [fst snd BotImpl.emitter BotImpl.with_emitter]. apply listeners_on_eq. }
  split; [|split; [|split; [|split; [|split; [|split]]]]].
  - subst ref. unfold BotImpl.on. cbn [snd].
    apply (not_elem_of_dom (D := gset ChainRef)). apply is_fresh.
  - subst heap' ref. unfold BotImpl.on. cbn [fst snd].
    rewrite lookup_insert_eq. by destruct listener.
  - subst heap' ref. unfold BotImpl.on. cbn [fst snd].
    intros other Hne. by rewrite lookup_insert_ne.
  - exact Hreg.
  - intros name Hne. subst this'. unfold BotImpl.on.
    cbn [fst snd BotImpl.emitter BotImpl.with_emitter]. by apply listeners_on_ne.
  - intros sync payload d out. subst out d.
    rewrite Hfan; rewrite Hreg; [|intros Hnil; by apply app_nil in Hnil as [_ ?]].
    split; [reflexivity|]. cbn [effects fst]. rewrite map_app. split.
    + apply elem_of_app. right. cbn. by apply list_elem_of_singleton.
    + intros earlier Hin. apply elem_of_app. left.
      apply (list_elem_of_fmap_2
               (fun l => Invoke l (VEvent {| EventData.type := Some event;
                                             EventData.payload := payload |}))) in Hin.
      exact Hin.
  - intros bot sync name payload chain d out Hin. subst out d.
    rewrite Hfan.
    + split; [reflexivity|]. cbn [effects fst].
      apply (list_elem_of_fmap_2
               (fun l => Invoke l (VEvent {| EventData.type := Some name;
                                             EventData.payload := payload |}))) in Hin.
      exact Hin.
    + intros Hnil. rewrite Hnil in Hin. by apply not_elem_of_nil in Hin.
Qed.

(** Two [on] calls under one name on the facade [create] returned: an
    envelope of that name calls the second chain and still the first. *)
Lemma on_registers_a_fresh_chain_witness :
  Invoke (BoundRun 1%nat)
    (VEvent {| EventData.type := Some "FriendMessage";
               EventData.payload := [("text", "hi")] |}) ∈
    effects (BotImpl.on_miraiEvent
               (snd (after [CallOn "FriendMessage" None; CallOn "FriendMessage" None]
                       (∅, Demo.bot)))
               (Some Demo.friendMessage))
  /\ Invoke (BoundRun 0%nat)
       (VEvent {| EventData.type := Some "FriendMessage";
                  EventData.payload := [("text", "hi")] |}) ∈
       effects (BotImpl.on_miraiEvent
                  (snd (after [CallOn "FriendMessage" None; CallOn "FriendMessage" None]
                          (∅, Demo.bot)))
                  (Some Demo.friendMessage)).
Proof.
  pose proof (on_registers_a_fresh_chain
                (fst (after [CallOn "FriendMessage" None] (∅, Demo.bot)))
                (snd (after [CallOn "FriendMessage" None] (∅, Demo.bot)))
                "FriendMessage" None) as H.
  destruct H as (_ & _ & _ & _ & _ & Hnew & _).
  destruct (Hnew (-1) [("text", "hi")]) as (_ & Hsecond & Hfirst).
  split.
  - exact Hsecond.
  - apply (Hfirst 0%nat). vm_compute. apply list_elem_of_here.
Defined.

(** Two chains under one name: each is called, once, with the event. *)
Example fan_out_two_chains :
  BotImpl.on_miraiEvent
    (snd (after [CallOn "FriendMessage" None; CallOnError 9%nat; CallOn "FriendMessage" None]
            (∅, Demo.bot)))
    (Some Demo.friendMessage) =
  ([Invoke (BoundRun 0%nat) (VEvent {| EventData.type := Some "FriendMessage";
                                       EventData.payload := [("text", "hi")] |});
    Invoke (BoundRun 1%nat) (VEvent {| EventData.type := Some "FriendMessage";
                                       EventData.payload := [("text", "hi")] |})],
   Normal true).
Proof. vm_compute; reflexivity. Qed.

(** ** The stages of a chain *)

Section ProcessChainFacts.
Context {T : Type}.
Implicit Types (stages : list (ProcessChain.MiddlewareFunc T)) (event current : T).

(** Piping stages one after the other onto a new chain registers them in
    that order. *)
Lemma pipe_all_chain stages (c : ProcessChain.t T) :
  ProcessChain.chain (fold_left ProcessChain.pipe stages c) =
  ProcessChain.chain c ++ stages.
Proof.
  revert c. induction stages as [|s stages IH]; intros c; cbn [fold_left].
  - by rewrite app_nil_r.
  - rewrite IH. cbn. by rewrite <- app_assoc.
Qed.

Lemma run_from_length stages i event current :
  (length (ProcessChain.run_from stages i event current) <= length stages)%nat.
Proof.
  revert i current. induction stages as [|s stages IH]; intros i current; cbn; [lia|].
  destruct (s current event); cbn; [|lia..].
  specialize (IH (S i) payload). lia.
Qed.

(** The [k]-th record is that of stage [i + k], applied to its input. *)
Lemma run_from_lookup stages i event current k (r : ProcessChain.StageRun T) :
  ProcessChain.run_from stages i event current !! k = Some r ->
  ProcessChain.index r = (i + k)%nat
  /\ exists stage, stages !! k = Some stage
                   /\ ProcessChain.outcome r = stage (ProcessChain.input r) event.
Proof.
  revert i current k. induction stages as [|s stages IH]; intros i current k; cbn; [done|].
  destruct k as [|k]; cbn.
  - intros [= <-]; cbn. split; [lia|]. by exists s.
  - destruct (s current event); cbn; [|done..].
    intros Hk. destruct (IH _ _ _ Hk) as [Hi Hs]. split; [lia|exact Hs].
Qed.

Lemma run_from_first stages i event current (r : ProcessChain.StageRun T) :
  ProcessChain.run_from stages i event current !! 0%nat = Some r ->
  ProcessChain.input r = current.
Proof. destruct stages; cbn; [done|]. by intros [= <-]. Qed.

(** What a stage passes onward is the input of the next one. *)
Lemma run_from_chained stages i event current k (r r' : ProcessChain.StageRun T) :
  ProcessChain.run_from stages i event current !! k = Some r ->
  ProcessChain.run_from stages i event current !! S k = Some r' ->
  ProcessChain.outcome r = ProcessChain.Next (ProcessChain.input r').
Proof.
  revert i current k. induction stages as [|s stages IH]; intros i current k; cbn; [done|].
  destruct k as [|k]; cbn.
  - intros [= <-]; cbn. destruct (s current event); cbn; [|done..].
    intros H0. by rewrite (run_from_first _ _ _ _ _ H0).
  - destruct (s current event); cbn; [|done..]. apply IH.
Qed.

(** A stage that did not run stands behind one that ended the
    occurrence. *)
Lemma run_from_skipped stages i event current k :
  (k < length stages)%nat ->
  ProcessChain.run_from stages i event current !! k = None ->
  exists j (r : ProcessChain.StageRun T),
    (j < k)%nat
    /\ ProcessChain.run_from stages i event current !! j = Some r
    /\ ProcessChain.is_terminal (ProcessChain.outcome r) = true.
Proof.
  revert i current k. induction stages as [|s stages IH]; intros i current k; cbn; [lia|].
  destruct k as [|k]; cbn; [done|]. intros Hk.
  destruct (s current event) as [payload| |failure]; cbn.
  - intros Hnone. destruct (IH (S i) payload k) as (j & r & Hj & Hr & Ht); [lia|done|].
    exists (S j), r. split; [lia|]. by split.
  - intros _. eexists 0%nat, _. split; [lia|]. split; reflexivity.
  - intros _. eexists 0%nat, _. split; [lia|]. split; reflexivity.
Qed.

(** A stage that ended the occurrence is the last that ran. *)
Lemma run_from_terminal_last stages i event current k (r : ProcessChain.StageRun T) :
  ProcessChain.run_from stages i event current !! k = Some r ->
  ProcessChain.is_terminal (ProcessChain.outcome r) = true ->
  ProcessChain.run_from stages i event current !! S k = None.
Proof.
  intros Hk Ht.
  destruct (ProcessChain.run_from stages i event current !! S k) as [r'|] eqn:Hn; [|done].
  rewrite (run_from_chained _ _ _ _ _ _ _ Hk Hn) in Ht. discriminate.
Qed.
End ProcessChainFacts.

(** C8: for a chain whose stages [s1, ..., sn] were registered with [pipe]
    in that order, the record of one [run] is a prefix of the registration
    order: its [k]-th entry is stage [k] applied to its input, the first
    input is the event, and the input of each later entry is exactly what
    the entry before it passed onward, so a stage starts on the settled
    output of its predecessor.  A registered stage is missing from the
    record only behind an earlier stage that ended the occurrence, by the
    terminal signal or by raising a failure, and nothing runs after such a
    stage. *)
Theorem run_follows_registration_order
    {T : Type} (stages : list (ProcessChain.MiddlewareFunc T)) (event : T) :
  let record := ProcessChain.run (fold_left ProcessChain.pipe stages ProcessChain.new) event in
  (length record <= length stages)%nat
  /\ (forall k r, record !! k = Some r ->
        ProcessChain.index r = k
        /\ exists stage, stages !! k = Some stage
                         /\ ProcessChain.outcome r = stage (ProcessChain.input r) event)
  /\ (forall r, record !! 0%nat = Some r -> ProcessChain.input r = event)
  /\ (forall k r r', record !! k = Some r -> record !! S k = Some r' ->
        ProcessChain.outcome r = ProcessChain.Next (ProcessChain.input r'))
  /\ (forall k, (k < length stages)%nat -> record !! k = None ->
        exists j r, (j < k)%nat /\ record !! j = Some r
                    /\ ProcessChain.is_terminal (ProcessChain.outcome r) = true)
  /\ (forall k r, record !! k = Some r ->
        ProcessChain.is_terminal (ProcessChain.outcome r) = true ->
        record !! S k = None).
Proof.
  intros record. subst record. unfold ProcessChain.run.
  rewrite pipe_all_chain. cbn [ProcessChain.chain ProcessChain.new app].
  split; [apply run_from_length|].
  split; [intros k r Hk; apply (run_from_lookup _ _ _ _ _ _ Hk)|].
  split; [apply run_from_first|].
  split; [apply run_from_chained|].
  split; [apply run_from_skipped|apply run_from_terminal_last].
Qed.

(** Stages that append a marker: all three run, in order. *)
Example run_three_markers :
  let mark (m : string) : ProcessChain.MiddlewareFunc (list string) :=
    fun current _ => ProcessChain.Next (current ++ [m]) in
  map ProcessChain.outcome
    (ProcessChain.run
       (fold_left ProcessChain.pipe [mark "s1"; mark "s2"; mark "s3"] ProcessChain.new) []) =
  [ProcessChain.Next ["s1"]; ProcessChain.Next ["s1"; "s2"];
   ProcessChain.Next ["s1"; "s2"; "s3"]].
Proof. reflexivity. Qed.

(** A terminal signal from the second stage keeps the third from running. *)
Example run_terminated :
  let mark (m : string) : ProcessChain.MiddlewareFunc (list string) :=
    fun current _ => ProcessChain.Next (current ++ [m]) in
  let stop : ProcessChain.MiddlewareFunc (list string) :=
    fun _ _ => ProcessChain.Terminate in
  map ProcessChain.index
    (ProcessChain.run
       (fold_left ProcessChain.pipe [mark "s1"; stop; mark "s3"] ProcessChain.new) []) =
  [0%nat; 1%nat].
Proof. reflexivity. Qed.

(** * Further properties of the facade *)

(** ** Construction, beyond the version gate *)

(** X1: [create] completes normally exactly when [version] is left out or is
    the string 2.6.0; it then has called the factory once, with the options
    it was given, [syncId] defaulting to -1 and the version being 2.6.0, and
    the facade holds the service the factory returned. *)
Theorem create_forwards_options
    (factory : MiraiServiceFactory.t) (opts : BotOptions.t) :
  let sopts :=
    {| ServiceOptions.url := BotOptions.url opts;
       ServiceOptions.verifyKey := BotOptions.verifyKey opts;
       ServiceOptions.qq := BotOptions.qq opts;
       ServiceOptions.syncId := Js.nullish (BotOptions.syncId opts) (-1);
       ServiceOptions.version := "2.6.0" |} in
  ((exists this, result (Bot.create factory opts) = Normal this) <->
   (BotOptions.version opts = None \/ BotOptions.version opts = Some "2.6.0"))
  /\ (forall this,
        result (Bot.create factory opts) = Normal this ->
        factory_calls (effects (Bot.create factory opts)) = [sopts]
        /\ BotImpl.service this = MiraiServiceFactory.create factory sopts
        /\ BotImpl.version this = "2.6.0"
        /\ BotImpl.emitter this = EventEmitter.new).
Proof.
  intros sopts. unfold Bot.create.
  destruct (BotOptions.version opts) as [V|] eqn:HV; cbn [Js.nullish].
  - case_bool_decide as Hin.
    + apply elem_of_versions in Hin. subst V. rewrite new_completes.
      cbn [result effects fst snd BotOptions.url BotOptions.verifyKey BotOptions.qq
           BotOptions.syncId BotOptions.version Js.nullish].
      split.
      * split; [intros _; by right|intros _; eexists; reflexivity].
      * intros this [= <-].
        match goal with
        | |- context [BotImpl.version_check ?b] =>
            pose proof (version_check_no_factory b) as Hnone
        end.
        unfold factory_calls in *. cbn [omap list_omap]. rewrite Hnone.
        repeat split.
    + split.
      * split; [intros [this H]; cbn in H; discriminate|].
        intros [H|[= ->]]; [discriminate|]. exfalso. apply Hin. by apply elem_of_versions.
      * intros this H; cbn in H; discriminate.
  - rewrite bool_decide_eq_true_2 by (by apply elem_of_versions).
    rewrite new_completes.
    cbn [result effects fst snd BotOptions.url BotOptions.verifyKey BotOptions.qq
         BotOptions.syncId BotOptions.version Js.nullish].
    split.
    + split; [intros _; by left|intros _; eexists; reflexivity].
    + intros this [= <-].
      match goal with
      | |- context [BotImpl.version_check ?b] =>
          pose proof (version_check_no_factory b) as Hnone
      end.
      unfold factory_calls in *. cbn [omap list_omap]. rewrite Hnone.
      repeat split.
Qed.

(** A version that agrees with 2.6.0 on major and minor is still refused. *)
Example create_2_6_1 :
  Bot.create (Demo.factory "2.6.1") (Demo.opts (Some "2.6.1")) =
    ([], Throw (ExnError (Js.new_Error "Unsupported version: 2.6.1"))).
Proof. vm_compute; reflexivity. Qed.

(** X2: the constructor first has the service built, then subscribes to
    ['miraiEvent'] and to ['error'], in that order and once each, then asks
    the service for its info once; whatever follows is at most one line on
    the console.  It sends no message and calls no listener. *)
Theorem new_effects_in_order
    (factory : MiraiServiceFactory.t) (opts : BotOptions.t) :
  exists sopts lines,
    effects (BotImpl.new factory opts) =
      [FactoryCreate sopts; ServiceOn "miraiEvent"; ServiceOn "error"; GetAbout] ++ lines
    /\ ServiceOptions.syncId sopts = Js.nullish (BotOptions.syncId opts) (-1)
    /\ ServiceOptions.version sopts = Js.nullish (BotOptions.version opts) "2.6.0"
    /\ (length lines <= 1)%nat
    /\ Forall (fun e => is_console e = true) lines.
Proof.
  rewrite new_completes. cbn [effects fst].
  match goal with |- context [BotImpl.version_check ?b] => set (this := b) end.
  eexists; exists (console (effects (BotImpl.version_check this))).
  unfold BotImpl.version_check, BotImpl.getAbout, bind, perform, ret.
  cbn [fst snd app effects].
  destruct (Service.getAbout (BotImpl.service this)) as [response|err]; cbn [Js.await_map].
  - unfold BotImpl.check_fulfilled.
    destruct (BotImpl.version_mismatch this _); cbn;
      (split; [reflexivity|]; split; [reflexivity|]; split; [reflexivity|]);
      (split; [lia|repeat constructor]).
  - cbn. split; [reflexivity|]. split; [reflexivity|]. split; [reflexivity|].
    split; [lia|repeat constructor].
Qed.

(** ** The test of the version check, in full *)

(** The test fails to warn exactly when the first two components of the
    reported version begin the first two of the declared one. *)
Lemma version_mismatch_prefix (this : BotImpl.t) (reported : string) :
  BotImpl.version_mismatch this reported = false <->
  major_minor reported `prefix_of` major_minor (BotImpl._version this).
Proof.
  unfold BotImpl.version_mismatch, major_minor, Js.slice0.
  destruct (Js.split_dot reported) as [|r0 [|r1 rs]];
    destruct (Js.split_dot (BotImpl._version this)) as [|d0 [|d1 ds]];
    rewrite ?firstn_cons, ?take_0, ?firstn_nil; unfold Js.some; cbn;
    try (split; [intros _; apply prefix_nil|reflexivity]);
    try (split; [discriminate|intros [k Hk]; discriminate Hk]).
  - destruct (String.eqb_spec r0 d0) as [->|Hne]; cbn.
    + split; [intros _; by exists []|reflexivity].
    + split; [discriminate|]. intros [k Hk]. cbn in Hk. congruence.
  - destruct (String.eqb_spec r0 d0) as [->|Hne]; cbn.
    + split; [intros _; by exists [d1]|reflexivity].
    + split; [discriminate|]. intros [k Hk]. cbn in Hk. congruence.
  - destruct (String.eqb_spec r0 d0) as [->|Hne]; cbn;
      (split; [discriminate|]); intros [k Hk]; cbn in Hk; destruct k; discriminate.
  - destruct (String.eqb_spec r0 d0) as [->|Hne], (String.eqb_spec r1 d1) as [->|Hne'];
      cbn; try (split; [discriminate|]; intros [k Hk]; cbn in Hk; congruence).
    split; [intros _; by exists []|reflexivity].
Qed.

(** X3: the fulfilment handler of the version check writes its warning, one
    line naming both versions, exactly when the first two dot-separated
    components of the reported version are not an initial part of the first
    two of the declared version; otherwise it writes nothing.  So a version
    that agrees on major and minor never warns, whatever its patch, and
    neither does a reported version that is the bare major. *)
Theorem version_warning_iff_not_prefix (this : BotImpl.t) (about : About.Data) :
  (major_minor (About.version about) `prefix_of` major_minor (BotImpl._version this) ->
     BotImpl.check_fulfilled this about = ([], Normal tt))
  /\ (~ major_minor (About.version about) `prefix_of` major_minor (BotImpl._version this) ->
        BotImpl.check_fulfilled this about =
          ([ConsoleWarn
              ("[WARN] mirai-api-http version mismatch: " +:+ BotImpl._version this +:+
               "(mirai-js) vs " +:+ About.version about +:+ "(mirai-api-http)")],
           Normal tt))
  /\ (major_minor (About.version about) = major_minor (BotImpl._version this) ->
        BotImpl.check_fulfilled this about = ([], Normal tt)).
Proof.
  unfold BotImpl.check_fulfilled.
  destruct (BotImpl.version_mismatch this (About.version about)) eqn:Hm.
  - assert (Hnp : ~ major_minor (About.version about)
                    `prefix_of` major_minor (BotImpl._version this)).
    { intros Hp. apply version_mismatch_prefix in Hp. congruence. }
    split; [intros Hp; by destruct Hnp|]. split; [reflexivity|].
    intros Heq. destruct Hnp. by rewrite Heq.
  - split; [reflexivity|]. split; [|reflexivity].
    intros Hnp. destruct Hnp. by apply version_mismatch_prefix.
Qed.

(** ** sendMessage, the remaining paths *)

(** X4: a [sendMessage] with [group] and without [qq] calls the service's
    group send once, to [group], with the message as a chain (a string
    promoted to its single [Plain] segment); the friend send is not called,
    and the call settles as the group send does: to the [messageId] of the
    response, or rejected with the same reason. *)
Theorem sendMessage_group_path
    (this : BotImpl.t) (group : Z) (message : Message) :
  let req :=
    {| SendRequest.target := group;
       SendRequest.messageChain :=
         match message with
         | Text s => [Plain s]
         | Chain messageChain => messageChain
         end |} in
  let sent :=
    BotImpl.sendMessage this
      {| SendArgs.qq := None; SendArgs.group := Some group; SendArgs.message := message |} in
  effects sent = [SendGroupMessage req]
  /\ (forall freq, SendFriendMessage freq ∉ effects sent)
  /\ (forall response,
        Service.sendGroupMessage (BotImpl.service this) req = Js.Fulfilled response ->
        result sent = Js.Fulfilled (SendResponse.messageId response))
  /\ (forall reason,
        Service.sendGroupMessage (BotImpl.service this) req = Js.Rejected reason ->
        result sent = Js.Rejected reason).
Proof.
  intros req sent.
  assert (Hreq : req = {| SendRequest.target := group;
                          SendRequest.messageChain := BotImpl.to_messageChain message |}).
  { subst req. by destruct message. }
  split; [subst sent; cbn; by rewrite Hreq|].
  split.
  { intros freq Hin. subst sent. cbn in Hin.
    apply list_elem_of_singleton in Hin. discriminate. }
  split; intros x E; subst sent; cbn; rewrite <- Hreq, E; reflexivity.
Qed.

(** X5: a [sendMessage] calls the service at most once; it calls it not at
    all exactly when neither target is given; what it calls is a send of the
    message as a chain; and it is fulfilled only after a send. *)
Theorem sendMessage_at_most_one_send (this : BotImpl.t) (args : SendArgs.t) :
  let sent := BotImpl.sendMessage this args in
  (length (effects sent) <= 1)%nat
  /\ (effects sent = [] <-> SendArgs.qq args = None /\ SendArgs.group args = None)
  /\ Forall (fun e =>
       exists target,
         let req := {| SendRequest.target := target;
                       SendRequest.messageChain :=
                         BotImpl.to_messageChain (SendArgs.message args) |} in
         e = SendFriendMessage req \/ e = SendGroupMessage req) (effects sent)
  /\ (forall id, result sent = Js.Fulfilled id -> effects sent <> []).
Proof.
  intros sent. subst sent. unfold BotImpl.sendMessage.
  destruct (SendArgs.qq args) as [qq|], (SendArgs.group args) as [group|]; cbn.
  all: split; [lia|].
  all: split; [split; [try discriminate; intros _; by split|intros [? ?]; by try discriminate]|].
  all: split; [repeat constructor; eexists; cbn; eauto|].
  all: intros id; try discriminate; intros _; discriminate.
Qed.

(** X6: a rejection of the send the call chose is the rejection of the
    call, with the same reason: on the friend path whenever [qq] is given,
    on the group path when only [group] is. *)
Theorem sendMessage_passes_rejection
    (this : BotImpl.t) (args : SendArgs.t) (reason : Js.Error) :
  let chain := BotImpl.to_messageChain (SendArgs.message args) in
  (forall qq,
     SendArgs.qq args = Some qq ->
     Service.sendFriendMessage (BotImpl.service this)
       {| SendRequest.target := qq; SendRequest.messageChain := chain |} = Js.Rejected reason ->
     result (BotImpl.sendMessage this args) = Js.Rejected reason)
  /\ (forall group,
        SendArgs.qq args = None ->
        SendArgs.group args = Some group ->
        Service.sendGroupMessage (BotImpl.service this)
          {| SendRequest.target := group; SendRequest.messageChain := chain |} = Js.Rejected reason ->
        result (BotImpl.sendMessage this args) = Js.Rejected reason).
Proof.
  intros chain. subst chain. unfold BotImpl.sendMessage. split.
  - intros qq -> E. cbn. by rewrite E.
  - intros group -> -> E. cbn. by rewrite E.
Qed.

Example sendMessage_rejected :
  let down :=
    {| BotImpl.service :=
         {| Service.sendFriendMessage := fun _ => Js.Rejected (Js.new_Error "timeout");
            Service.sendGroupMessage := fun _ => Js.Rejected (Js.new_Error "timeout");
            Service.getAbout := Js.Rejected (Js.new_Error "timeout") |};
       BotImpl._version := "2.6.0";
       BotImpl.emitter := EventEmitter.new |} in
  result (BotImpl.sendMessage down
            {| SendArgs.qq := Some 0; SendArgs.group := None; SendArgs.message := Chain [] |}) =
  Js.Rejected (Js.new_Error "timeout").
Proof. reflexivity. Qed.

(** ** Registrations and what they change *)

(** The registration calls of [name] among [calls]. *)
Definition registrations (name : string) (calls : list Call) : nat :=
  length (List.filter (fun c => String.eqb (registers_under c) name) calls).


(** Every chain the emitter would call is an object of the store. *)
Definition chains_alive (st : Heap * BotImpl.t) : Prop :=
  forall name ref,
    BoundRun ref ∈ EventEmitter.listeners (BotImpl.emitter (snd st)) name ->
    is_Some (fst st !! ref).

Lemma call_listeners_eq (st : Heap * BotImpl.t) (c : Call) :
  exists l,
    EventEmitter.listeners (BotImpl.emitter (snd (call st c))) (registers_under c) =
    EventEmitter.listeners (BotImpl.emitter (snd st)) (registers_under c) ++ [l].
Proof.
  destruct c as [event listener|listener]; cbn; eexists; apply listeners_on_eq.
Qed.

Lemma after_listeners_length (calls : list Call) (st : Heap * BotImpl.t) (name : string) :
  length (EventEmitter.listeners (BotImpl.emitter (snd (after calls st))) name) =
  (length (EventEmitter.listeners (BotImpl.emitter (snd st)) name)
   + registrations name calls)%nat.
Proof.
  revert st. induction calls as [|c calls IH]; intros st.
  - unfold registrations; cbn. lia.
  - cbn [after fold_left]. fold (after calls (call st c)). rewrite IH.
    unfold registrations. cbn [List.filter].
    destruct (String.eqb_spec (registers_under c) name) as [<-|Hne].
    + destruct (call_listeners_eq st c) as [l ->]. rewrite length_app. cbn. lia.
    + rewrite (call_listeners_ne st c name Hne). lia.
Qed.

Lemma onError_all_listeners (fs : list FunctionRef) (this : BotImpl.t) :
  EventEmitter.listeners (BotImpl.emitter (fold_left BotImpl.onError fs this)) "error" =
  EventEmitter.listeners (BotImpl.emitter this) "error" ++ map Callback fs.
Proof.
  revert this. induction fs as [|f fs IH]; intros this; cbn [fold_left map].
  - by rewrite app_nil_r.
  - rewrite IH. unfold BotImpl.onError at 1; cbn [BotImpl.emitter BotImpl.with_emitter].
    rewrite listeners_on_eq. by rewrite <- app_assoc.
Qed.

(** X7: handlers registered through [onError] are all called, in the order
    of their registration and after the listeners the channel already had,
    as often as they were registered (a handler given twice is called
    twice); with at least one registered nothing is thrown, whatever the
    value the service pushed. *)
Theorem onError_handlers_called_in_order
    (this : BotImpl.t) (f : FunctionRef) (fs : list FunctionRef) (err : Value) :
  BotImpl.on_service_error (fold_left BotImpl.onError (f :: fs) this) err =
    (map (fun l => Invoke l err)
         (EventEmitter.listeners (BotImpl.emitter this) "error" ++ map Callback (f :: fs)),
     Normal true).
Proof.
  unfold BotImpl.on_service_error.
  rewrite emit_listened; rewrite onError_all_listeners; [reflexivity|].
  intros Hnil. apply (f_equal length) in Hnil. rewrite length_app in Hnil.
  cbn in Hnil. lia.
Qed.

Example onError_twice :
  BotImpl.on_service_error
    (fold_left BotImpl.onError [4%nat; 4%nat] Demo.bot) (VError Demo.socketClosed) =
  ([Invoke (Callback 4%nat) (VError Demo.socketClosed);
    Invoke (Callback 4%nat) (VError Demo.socketClosed)], Normal true).
Proof. vm_compute; reflexivity. Qed.

(** X8: on a facade [create] returned, an envelope tagged [name] causes as
    many listener calls as there were registrations under [name], each with
    the envelope's data (the [syncId] is not passed on).  Without any
    registration the envelope is dropped and the bridge returns false,
    except under the tag ['error'], where the bridge throws the emitter's
    unhandled-error exception around the data. *)
Theorem dispatch_counts_registrations
    (factory : MiraiServiceFactory.t) (opts : BotOptions.t) (this : BotImpl.t)
    (heap : Heap) (calls : list Call) (sync : Z) (d : EventData.t) (name : string) :
  result (Bot.create factory opts) = Normal this ->
  EventData.type d = Some name ->
  let out :=
    BotImpl.on_miraiEvent (snd (after calls (heap, this)))
      (Some {| GenericEvent.syncId := sync; GenericEvent.data := Some d |}) in
  match registrations name calls with
  | O =>
      if String.eqb name "error"
      then out = ([], Throw (ExnUnhandled (VEvent d)))
      else out = ([], Normal false)
  | S n =>
      length (effects out) = S n
      /\ Forall (fun e => exists l, e = Invoke l (VEvent d)) (effects out)
      /\ result out = Normal true
  end.
Proof.
  intros Hcreate Htype out.
  pose proof (after_listeners_length calls (heap, this) name) as Hlen.
  cbn [snd] in Hlen. rewrite (create_emitter_new factory opts this Hcreate) in Hlen.
  rewrite listeners_new in Hlen. cbn [length Nat.add] in Hlen.
  subst out. unfold BotImpl.on_miraiEvent, BotImpl.event_type. cbn. rewrite Htype.
  destruct (registrations name calls) as [|n].
  - apply nil_length_inv in Hlen.
    destruct (String.eqb_spec name "error") as [->|Hne].
    + by rewrite emit_error_unhandled.
    + unfold EventEmitter.emit. cbn [EventEmitter.is_error].
      rewrite (proj2 (String.eqb_neq name "error") Hne). cbn [andb].
      cbn [EventEmitter.property_key Js.template]. by rewrite Hlen.
  - rewrite emit_listened.
    + cbn [effects result fst snd]. rewrite length_map. split; [exact Hlen|].
      split; [|reflexivity]. apply Forall_forall. intros e He.
      apply list_elem_of_fmap in He as (l & -> & _). by exists l.
    + intros Hnil. rewrite Hnil in Hlen. discriminate.
Qed.

Lemma dispatch_counts_registrations_witness :
  length (effects
    (BotImpl.on_miraiEvent
       (snd (after [CallOn "FriendMessage" None; CallOn "GroupMessage" None;
                    CallOn "FriendMessage" None] (∅, Demo.bot)))
       (Some Demo.friendMessage))) = 2%nat
  /\ BotImpl.on_miraiEvent
       (snd (after [CallOn "FriendMessage" None] (∅, Demo.bot)))
       (Some {| GenericEvent.syncId := 3; GenericEvent.data := Some Demo.errorEvent |}) =
     ([], Throw (ExnUnhandled (VEvent Demo.errorEvent))).
Proof.
  split.
  - apply (dispatch_counts_registrations (Demo.factory "2.6.2") (Demo.opts None) Demo.bot ∅
             [CallOn "FriendMessage" None; CallOn "GroupMessage" None;
              CallOn "FriendMessage" None] (-1)
             {| EventData.type := Some "FriendMessage";
                EventData.payload := [("text", "hi")] |} "FriendMessage");
      reflexivity.
  - apply (dispatch_counts_registrations (Demo.factory "2.6.2") (Demo.opts None) Demo.bot ∅
             [CallOn "FriendMessage" None] 3 Demo.errorEvent "error");
      reflexivity.
Defined.














(** X10: registering chains and error handlers changes neither the service
    nor the version of the facade: [sendMessage] and [getAbout] behave after
    any registrations as they did before. *)
Theorem registration_keeps_service (calls : list Call) (st : Heap * BotImpl.t) :
  BotImpl.service (snd (after calls st)) = BotImpl.service (snd st)
  /\ BotImpl.version (snd (after calls st)) = BotImpl.version (snd st)
  /\ (forall args,
        BotImpl.sendMessage (snd (after calls st)) args = BotImpl.sendMessage (snd st) args)
  /\ BotImpl.getAbout (snd (after calls st)) = BotImpl.getAbout (snd st).
Proof.
  assert (Hkeep : BotImpl.service (snd (after calls st)) = BotImpl.service (snd st)
                  /\ BotImpl._version (snd (after calls st)) = BotImpl._version (snd st)).
  { revert st. induction calls as [|c calls IH]; intros st; [done|].
    cbn [after fold_left]. fold (after calls (call st c)).
    destruct (IH (call st c)) as [-> ->]. by destruct c. }
  destruct Hkeep as [Hs Hv].
  split; [exact Hs|]. split; [exact Hv|].
  split; [|unfold BotImpl.getAbout; by rewrite Hs].
  intros args. unfold BotImpl.sendMessage. by rewrite Hs.
Qed.

(** X11: [onError] and an [on] under an event name other than ['error'] can
    be called in either order: the store, the facade and the chain
    returned are the same. *)
Theorem onError_commutes_with_on
    (heap : Heap) (this : BotImpl.t) (event : string)
    (listener : option (ProcessChain.MiddlewareFunc EventData.t)) (f : FunctionRef) :
  event <> "error" ->
  BotImpl.on heap (BotImpl.onError this f) event listener =
    (fst (fst (BotImpl.on heap this event listener)),
     BotImpl.onError (snd (fst (BotImpl.on heap this event listener))) f,
     snd (BotImpl.on heap this event listener)).
Proof.
  intros Hne. unfold BotImpl.on, BotImpl.onError.
  cbn [fst snd BotImpl.emitter BotImpl.with_emitter BotImpl.service BotImpl._version].
  f_equal. f_equal. unfold BotImpl.with_emitter; cbn. f_equal.
  unfold EventEmitter.on, EventEmitter.listeners; cbn [EventEmitter._events].
  f_equal. rewrite !lookup_insert_ne by done.
  by apply insert_insert_ne.
Qed.

Lemma onError_commutes_with_on_witness :
  BotImpl.on ∅ (BotImpl.onError Demo.bot 7%nat) "FriendMessage" None =
    (fst (fst (BotImpl.on ∅ Demo.bot "FriendMessage" None)),
     BotImpl.onError (snd (fst (BotImpl.on ∅ Demo.bot "FriendMessage" None))) 7%nat,
     snd (BotImpl.on ∅ Demo.bot "FriendMessage" None)).
Proof.
  apply (onError_commutes_with_on ∅ Demo.bot "FriendMessage" None 7%nat). discriminate.
Defined.

(** ** getAbout and the check built on it *)

(** X12: [getAbout] asks the service for its info once and settles as that
    query does, to the [data] of the response or rejected with the same
    reason; and the line the constructor's check writes on a failure
    reports the very reason [getAbout] was rejected with. *)
Theorem getAbout_forwards (this : BotImpl.t) :
  effects (BotImpl.getAbout this) = [GetAbout]
  /\ (forall response,
        Service.getAbout (BotImpl.service this) = Js.Fulfilled response ->
        result (BotImpl.getAbout this) = Js.Fulfilled (About.data response))
  /\ (forall reason,
        Service.getAbout (BotImpl.service this) = Js.Rejected reason ->
        result (BotImpl.getAbout this) = Js.Rejected reason)
  /\ (forall reason,
        result (BotImpl.getAbout this) = Js.Rejected reason ->
        BotImpl.version_check this =
          ([GetAbout;
            ConsoleError
              ("[ERROR] mirai-api-http version check failed: " +:+ Js.Error_toString reason)],
           Normal tt)).
Proof.
  unfold BotImpl.version_check, BotImpl.getAbout, bind, perform, ret; cbn [fst snd app effects result].
  split; [reflexivity|].
  destruct (Service.getAbout (BotImpl.service this)) as [response|err]; cbn [Js.await_map].
  - split; [by intros ? [= <-]|]. split; [discriminate|discriminate].
  - split; [discriminate|]. split; [by intros ? [= <-]|].
    by intros ? [= <-].
Qed.

(** [split('.')] never gives an empty array. *)
Lemma split_dot_nonempty (s : string) : Js.split_dot s <> [].
Proof.
  destruct s as [|c rest]; cbn; [done|].
  destruct (Ascii.eqb c "."); [done|]. by destruct (Js.split_dot rest).
Qed.

(** X13: a facade [create] returned declares 2.6.0, so its construction
    leaves the console silent exactly when the service reports a version
    whose first component is 2 and whose second, if there is one, is 6; any
    other reported version costs exactly one warning naming both
    versions. *)
Theorem create_warns_unless_2_6
    (factory : MiraiServiceFactory.t) (opts : BotOptions.t) (this : BotImpl.t)
    (response : About.Response) :
  result (Bot.create factory opts) = Normal this ->
  Service.getAbout (BotImpl.service this) = Js.Fulfilled response ->
  let reported := About.version (About.data response) in
  console (effects (Bot.create factory opts)) =
    if bool_decide (major_minor reported = ["2"] \/ major_minor reported = ["2"; "6"])
    then []
    else [ConsoleWarn
            ("[WARN] mirai-api-http version mismatch: 2.6.0(mirai-js) vs " +:+ reported +:+
             "(mirai-api-http)")].
Proof.
  intros Hcreate Habout reported. revert Hcreate.
  unfold Bot.create. case_bool_decide as Hin; [|cbn; discriminate].
  apply elem_of_versions in Hin.
  rewrite new_completes.
  match goal with |- context [BotImpl.version_check ?b] => set (built := b) end.
  cbn [result effects fst snd]. intros [= Hthis]. subst this.
  assert (Hv : BotImpl._version built = "2.6.0") by exact Hin.
  set (this := built) in *. clearbody this. clear built.
  unfold console. cbn [List.filter is_console].
  unfold BotImpl.version_check, BotImpl.getAbout, bind, perform, ret.
  cbn [fst snd app]. rewrite Habout. cbn [Js.await_map List.filter is_console].
  unfold BotImpl.check_fulfilled. fold reported. rewrite Hv.
  pose proof (version_mismatch_prefix this reported) as Hp. rewrite Hv in Hp.
  change (major_minor "2.6.0") with ["2"; "6"] in Hp.
  assert (Hne : major_minor reported <> []).
  { unfold major_minor. pose proof (split_dot_nonempty reported).
    by destruct (Js.split_dot reported). }
  destruct (BotImpl.version_mismatch this reported) eqn:Hm.
  - rewrite bool_decide_eq_false_2; [reflexivity|].
    intros Hor. assert (Hpre : major_minor reported `prefix_of` ["2"; "6"]).
    { destruct Hor as [->| ->]; [by exists ["6"]|by exists []]. }
    apply Hp in Hpre. congruence.
  - rewrite bool_decide_eq_true_2; [reflexivity|].
    destruct (proj1 Hp eq_refl) as [k Hk].
    destruct (major_minor reported) as [|a [|b [|c l]]]; [done| | |]; cbn in Hk.
    + left. congruence.
    + right. congruence.
    + injection Hk as _ _ Hk. discriminate.
Qed.

Lemma create_warns_unless_2_6_witness :
  console (effects (Bot.create (Demo.factory "2.10.3") (Demo.opts (Some "2.6.0")))) =
    [ConsoleWarn
       "[WARN] mirai-api-http version mismatch: 2.6.0(mirai-js) vs 2.10.3(mirai-api-http)"].
Proof.
  apply (create_warns_unless_2_6 (Demo.factory "2.10.3") (Demo.opts (Some "2.6.0"))
           {| BotImpl.service := Demo.service "2.10.3";
              BotImpl._version := "2.6.0";
              BotImpl.emitter := EventEmitter.new |}
           {| About.data := {| About.version := "2.10.3" |} |});
    reflexivity.
Defined.

(** ** The version check against the components of the versions *)

Lemma append_empty_r (s : string) : s +:+ EmptyString = s.
Proof.
  induction s as [|c s IH]; [reflexivity|].
  change (String c (s +:+ EmptyString) = String c s). by rewrite IH.
Qed.

Lemma append_assoc (a b c : string) : (a +:+ b) +:+ c = a +:+ (b +:+ c).
Proof.
  induction a as [|x a IH]; [reflexivity|].
  change (String x ((a +:+ b) +:+ c) = String x (a +:+ (b +:+ c))). by rewrite IH.
Qed.

Lemma components_from_split (piece s : string) :
  components_from piece s =
    match Js.split_dot s with
    | first :: others => (piece +:+ first) :: others
    | [] => [piece]
    end.
Proof.
  revert piece. induction s as [|c rest IH]; intros piece; cbn.
  - by rewrite append_empty_r.
  - destruct (Ascii.eqb c "."); cbn.
    + rewrite append_empty_r, IH. pose proof (split_dot_nonempty rest).
      by destruct (Js.split_dot rest).
    + rewrite IH. pose proof (split_dot_nonempty rest).
      destruct (Js.split_dot rest) as [|first others]; [done|].
      by rewrite append_assoc.
Qed.

(** [split('.')] computes the components of a string. *)
Lemma split_dot_components (s : string) : Js.split_dot s = components s.
Proof.
  unfold components. rewrite components_from_split.
  pose proof (split_dot_nonempty s). by destruct (Js.split_dot s).
Qed.

Lemma components_nonempty (v : string) : components v <> [].
Proof. rewrite <- split_dot_components. apply split_dot_nonempty. Qed.

(** The components are what the string is made of: joined by dots they give
    the string back, and none of them holds a dot. *)
Lemma components_join (v : string) : join_dot (components v) = v.
Proof.
  rewrite <- split_dot_components. induction v as [|c rest IH]; [reflexivity|].
  cbn [Js.split_dot]. pose proof (split_dot_nonempty rest) as Hne.
  destruct (Ascii.eqb_spec c "."%char) as [->|_];
    destruct (Js.split_dot rest) as [|first others]; try done.
  - cbn [join_dot]. cbn [join_dot] in IH. by rewrite <- IH.
  - cbn [join_dot]. cbn [join_dot] in IH. rewrite <- IH. by destruct others.
Qed.

Lemma components_dot_free (v : string) :
  Forall (fun piece => dot_free piece = true) (components v).
Proof.
  rewrite <- split_dot_components. induction v as [|c rest IH]; cbn.
  - by repeat constructor.
  - destruct (Ascii.eqb c ".") eqn:Hc.
    + by constructor.
    + pose proof (split_dot_nonempty rest) as Hne.
      destruct (Js.split_dot rest) as [|first others]; [done|].
      inversion IH as [|? ? Hfirst Hothers]; subst.
      constructor; [cbn; by rewrite Hc, Hfirst|exact Hothers].
Qed.

(** The first two components of the reported version begin the first two of
    the declared one in two cases only: they are the same, or the reported
    version is the bare major of the declared one. *)
Lemma prefix_major_minor (declared reported : list string) :
  reported <> [] ->
  take 2 reported `prefix_of` take 2 declared <->
  take 2 declared = take 2 reported \/ reported = take 1 declared.
Proof.
  intros Hne.
  destruct reported as [|r0 [|r1 rs]]; [done| |];
    destruct declared as [|d0 [|d1 ds]]; rewrite ?firstn_cons, ?take_0, ?firstn_nil.
  all: split; [intros [k Hk]; cbn in Hk|intros [Heq|Heq]].
  all: try discriminate; try (simplify_eq; (by left) || (by right)).
  all: try (simplify_eq; by eexists).
Qed.

(** C6, as the specification states it, fails: the facade [create] returns
    declares 2.6.0, the service reports 2, which differs from it at
    major.minor granularity, and the console receives nothing. *)
Lemma bare_major_not_warned :
  exists this,
    result (Bot.create (Demo.factory "2") (Demo.opts None)) = Normal this
    /\ Service.getAbout (BotImpl.service this) =
         Js.Fulfilled {| About.data := {| About.version := "2" |} |}
    /\ differs_at_major_minor (BotImpl.version this) "2"
    /\ console (effects (Bot.create (Demo.factory "2") (Demo.opts None))) = [].
Proof.
  eexists. split; [vm_compute; reflexivity|]. split; [reflexivity|].
  split; [|vm_compute; reflexivity].
  unfold differs_at_major_minor. vm_compute. discriminate.
Qed.

(** C6 (amended): the version check of the constructor is advisory.
    Whatever the info query settles to, the constructor completes normally
    with the facade and the check itself completes normally.  When the query
    is fulfilled with a version that differs from the declared one at
    major.minor granularity, the console receives exactly one line, the
    warning, unless the reported version is the bare major component of the
    declared one (2 against 2.6.0): that version, like one that does not
    differ, leaves the console empty.  When the query is rejected the
    console receives exactly one line, the error report. *)
Theorem version_check_is_advisory
    (factory : MiraiServiceFactory.t) (opts : BotOptions.t) :
  exists this,
    result (BotImpl.new factory opts) = Normal this
    /\ console (effects (BotImpl.new factory opts)) =
         console (effects (BotImpl.version_check this))
    /\ result (BotImpl.version_check this) = Normal tt
    /\ match Service.getAbout (BotImpl.service this) with
       | Js.Fulfilled response =>
           let declared := BotImpl._version this in
           let reported := About.version (About.data response) in
           (differs_at_major_minor declared reported ->
            ~ is_bare_major_of declared reported ->
            console (effects (BotImpl.version_check this)) =
              [ConsoleWarn
                 ("[WARN] mirai-api-http version mismatch: " +:+ declared +:+
                  "(mirai-js) vs " +:+ reported +:+ "(mirai-api-http)")])
           /\ (~ differs_at_major_minor declared reported ->
                 console (effects (BotImpl.version_check this)) = [])
           /\ (is_bare_major_of declared reported ->
                 console (effects (BotImpl.version_check this)) = [])
       | Js.Rejected err =>
           console (effects (BotImpl.version_check this)) =
             [ConsoleError
                ("[ERROR] mirai-api-http version check failed: " +:+ Js.Error_toString err)]
       end.
Proof.
  rewrite new_completes. eexists. split; [reflexivity|].
  split; [reflexivity|].
  match goal with |- context [BotImpl.version_check ?b] => set (this := b) end.
  unfold BotImpl.version_check, BotImpl.getAbout, bind, perform, ret.
  cbn [fst snd app effects result].
  destruct (Service.getAbout (BotImpl.service this)) as [response|err];
    cbn [Js.await_map]; [|split; reflexivity].
  set (declared := BotImpl._version this).
  set (reported := About.version (About.data response)).
  pose proof (version_mismatch_prefix this reported) as Hp.
  unfold major_minor in Hp. rewrite !split_dot_components in Hp.
  rewrite (prefix_major_minor _ _ (components_nonempty reported)) in Hp.
  fold declared in Hp.
  unfold BotImpl.check_fulfilled. fold reported. fold declared.
  unfold differs_at_major_minor, is_bare_major_of.
  destruct (BotImpl.version_mismatch this reported) eqn:Hm.
  - split; [reflexivity|]. cbn zeta. split; [reflexivity|]. split.
    + intros Hsame. assert (Heq : take 2 (components declared) = take 2 (components reported)).
      { destruct (decide (take 2 (components declared) = take 2 (components reported)));
          [done|by destruct Hsame]. }
      assert (Hf : true = false) by (apply Hp; by left). discriminate.
    + intros Hbare. assert (Hf : true = false) by (apply Hp; by right). discriminate.
  - split; [reflexivity|]. cbn zeta. split; [|split; reflexivity].
    intros Hdiff Hnot. destruct (proj1 Hp eq_refl) as [Heq|Hbare]; [by destruct Hdiff|by destruct Hnot].
Qed.
